(** * Carillon: the chime scheduler of [Carillon.py]

    A shallow embedding of the schedule list, the text editor of [main()]
    and the scanning loop of [playout()], and the properties of the
    design document checked against them.

    Conventions of the embedding:
    - a Python [int] is a [Z]; a Python [str] is a [string] (ASCII input);
    - an event, the seven-element list built at the end of [main()], is a
      record with one field per list index;
    - the schedule is a [list event], addressed as Python does: negative
      indices count from the end, an index out of range raises;
    - [open(name, "r")] and [playsound(name)] are oracles that say whether
      the call returns or raises;
    - the clock is read once per pass through the loop body of
      [playout()]: the strftime calls of one pass see the same minute;
    - the two threads share the schedule: the lines typed into the editor
      are processed between two passes of the loop body of [playout()];
    - everything printed is recorded in a trace of [output] values, the
      sounds played among them. *)

From Stdlib Require Import ZArith Lia Bool Ascii String DecimalString.
From stdpp Require Import base option list strings gmap.

Local Open Scope string_scope.
Local Open Scope list_scope.
Local Open Scope Z_scope.

(** ** Python strings *)

Module Py.

Definition is_digit (c : ascii) : bool :=
  ((48 <=? nat_of_ascii c) && (nat_of_ascii c <=? 57))%nat.

Definition digit_val (c : ascii) : Z := Z.of_nat (nat_of_ascii c) - 48.

(** The characters [int()] strips: tab, newline, VT, FF, CR, space. *)
Definition is_space (c : ascii) : bool :=
  let n := nat_of_ascii c in (((9 <=? n) && (n <=? 13)) || (n =? 32))%nat.

Definition lower_char (c : ascii) : ascii :=
  let n := nat_of_ascii c in
  if ((65 <=? n) && (n <=? 90))%nat then ascii_of_nat (n + 32) else c.

(** [s.lower()] *)
Fixpoint lower (s : string) : string :=
  match s with
  | EmptyString => EmptyString
  | String c s' => String (lower_char c) (lower s')
  end.

(** [s.isnumeric()]: false on the empty string. *)
Fixpoint all_digits (s : string) : bool :=
  match s with
  | EmptyString => true
  | String c s' => is_digit c && all_digits s'
  end.

Definition isnumeric (s : string) : bool :=
  match s with
  | EmptyString => false
  | _ => all_digits s
  end.

(** [c in s] for a one-character [c] *)
Fixpoint contains (c : ascii) (s : string) : bool :=
  match s with
  | EmptyString => false
  | String d s' => Ascii.eqb d c || contains c s'
  end.

(** [s.split(sep)] for a one-character separator: empty fields are kept
    and the result is never empty. *)
Fixpoint split (sep : ascii) (s : string) : list string :=
  match s with
  | EmptyString => [EmptyString]
  | String c s' =>
      if Ascii.eqb c sep then EmptyString :: split sep s'
      else match split sep s' with
           | w :: ws => String c w :: ws
           | [] => [String c EmptyString]
           end
  end.

(** [s.split(sep, n)]: at most [n] cuts, the rest is the last field. *)
Fixpoint splitn (sep : ascii) (s : string) (n : nat) {struct s} : list string :=
  match n with
  | O => [s]
  | S n' =>
      match s with
      | EmptyString => [EmptyString]
      | String c s' =>
          if Ascii.eqb c sep then EmptyString :: splitn sep s' n'
          else match splitn sep s' n with
               | w :: ws => String c w :: ws
               | [] => [String c EmptyString]
               end
      end
  end.

(** [s.endswith(suffix)] *)
Definition endswith (s suffix : string) : bool :=
  let n := String.length s in
  let k := String.length suffix in
  ((k <=? n)%nat && String.eqb (substring (n - k) k s) suffix).

Fixpoint lstrip (s : string) : string :=
  match s with
  | EmptyString => EmptyString
  | String c s' => if is_space c then lstrip s' else s
  end.

Fixpoint rstrip (s : string) : string :=
  match s with
  | EmptyString => EmptyString
  | String c s' =>
      match rstrip s' with
      | EmptyString => if is_space c then EmptyString else String c EmptyString
      | r => String c r
      end
  end.

(** The digits of a base-ten literal: at least one digit, underscores
    only between two digits. *)
Fixpoint int_digits (s : string) (acc : Z) (after_digit : bool) : option Z :=
  match s with
  | EmptyString => if after_digit then Some acc else None
  | String c s' =>
      if is_digit c then int_digits s' (10 * acc + digit_val c) true
      else if Ascii.eqb c "_"%char && after_digit then int_digits s' acc false
      else None
  end.

(** [int(s)]: [None] stands for [ValueError]. *)
Definition int (s : string) : option Z :=
  match rstrip (lstrip s) with
  | String "+"%char r => int_digits r 0 false
  | String "-"%char r => Z.opp <$> int_digits r 0 false
  | r => int_digits r 0 false
  end.

(** [str(n)] *)
Definition str (n : Z) : string := NilEmpty.string_of_int (Z.to_int n).

(** Index normalisation of [l[k]], [l[k] = x] and [l.pop(k)] on a list of
    length [len]: a negative index counts from the end; [None] stands for
    [IndexError]. *)
Definition index (len : nat) (k : Z) : option nat :=
  let k' := if k <? 0 then k + Z.of_nat len else k in
  if (0 <=? k') && (k' <? Z.of_nat len) then Some (Z.to_nat k') else None.

Section Lists.
Context {A : Type}.

(** [l[k]] *)
Definition getitem (l : list A) (k : Z) : option A :=
  i ← index (length l) k; l !! i.

(** [l[k] = x] *)
Definition setitem (l : list A) (k : Z) (x : A) : option (list A) :=
  i ← index (length l) k; Some (<[i := x]> l).

(** [l.pop(k)]: the element removed and the list left. *)
Definition pop (l : list A) (k : Z) : option (A * list A) :=
  i ← index (length l) k; x ← l !! i; Some (x, delete i l).
End Lists.

End Py.

(** ** The data model *)

(** An event: the list [[date, start_day, end_day, start_hour, end_hour,
    minute, file]] appended to [schedule]. *)
Record event : Type := Event {
  date : string;       (* [0]: empty for a weekday range, or mm/dd/yy *)
  start_day : Z;       (* [1]: starting weekday number *)
  end_day : Z;         (* [2]: ending weekday number *)
  start_hour : Z;      (* [3] *)
  end_hour : Z;        (* [4] *)
  minute : Z;          (* [5] *)
  file : string        (* [6]: file name or the keyword Strike *)
}.

(** What the strftime calls of [playout()] read from the clock:
    [%x], [%w], [%H], [%M]. *)
Record timestamp : Type := Timestamp {
  now_date : string;   (* %x, as mm/dd/yy *)
  now_weekday : Z;     (* %w, Sunday is 0 *)
  now_hour : Z;        (* %H *)
  now_minute : Z       (* %M *)
}.

Definition file_path : string := "/home/dave/Carillon/".

(** The default schedule for a tower clock. *)
Definition default_schedule : list event :=
  [ Event "" 0 6 0 23 59 "Hour";
    Event "" 0 6 0 23 0 "Strike";
    Event "" 0 6 0 23 15 "Quarter";
    Event "" 0 6 0 23 30 "Half";
    Event "" 0 6 0 23 45 "ThreeQuarter" ].

Definition day_list : list string := ["su"; "mo"; "tu"; "we"; "th"; "fr"; "sa"].

Definition day_dict : gmap string Z :=
  list_to_map [("su", 0); ("mo", 1); ("tu", 2); ("we", 3); ("th", 4); ("fr", 5); ("sa", 6)].

(** Everything the two threads print, and the sounds played. *)
Inductive output : Type :=
| Prompt
| BlankLine
| Instructions
| Table (lines : list string)
| ErrLineNumber
| NoLine (line_number : Z)
| ErrFiveItems
| ErrDate
| ErrMonth (month : Z)
| ErrDay (day : Z)
| ErrYear (year : Z)
| ErrWeekdayList
| ErrWeekday
| ErrHourRange
| ErrStartHourNumeric (h : string)
| ErrStartHour (h : Z)
| ErrEndHourNumeric (h : string)
| ErrEndHour (h : Z)
| ErrMinute (m : Z)
| ErrFileMissing (name : string)
| ErrFileNotFound (name : string)
| ErrUnanticipated
| Played (name : string)
| InternalError
| EventLine (n : Z) (e : event)
| EventDeleted (n : Z).

(** ** show_schedule *)

(** One displayed line. [day_list[...]] raises on an index outside
    [-7..6]; the date column is printed instead when the date is set. *)
Definition show_line (i : nat) (e : event) : option string :=
  days ←
    (if negb (String.eqb (date e) "") then Some (date e +:+ " ")
     else
       d1 ← Py.getitem day_list (start_day e);
       d2 ← Py.getitem day_list (end_day e);
       Some (d1 +:+ (if negb (String.eqb d2 d1) then "-" +:+ d2 +:+ " " else " ")));
  Some (Py.str (Z.of_nat i + 1) +:+ ": " +:+ days
        +:+ Py.str (start_hour e)
        +:+ (if negb (start_hour e =? end_hour e)
             then "-" +:+ Py.str (end_hour e) +:+ " " else " ")
        +:+ Py.str (minute e) +:+ " " +:+ file e).

Fixpoint show_lines (i : nat) (schedule : list event) : option (list string) :=
  match schedule with
  | [] => Some []
  | e :: rest =>
      l ← show_line i e; ls ← show_lines (S i) rest; Some (l :: ls)
  end.

(** [show_schedule()]: the table printed, or [None] when it raises. *)
Definition show_schedule (schedule : list event) : option output :=
  ls ← show_lines 0 schedule; Some (Table ("Day(s) Hr(s) Min Tune" :: ls)).

(** ** playout: is the i-th event to be played now? *)

(** The chain of [continue] tests of the loop body, in source order. The
    clock reads of one pass through the body are taken at one [now]. *)
Definition is_due (now : timestamp) (e : event) : bool :=
  if negb (String.eqb (date e) "") && negb (String.eqb (now_date now) (date e)) then false
  else if (start_day e <? 8) && (now_weekday now <? start_day e) then false
  else if (end_day e <? 8) && (now_weekday now >? end_day e) then false
  else if now_hour now <? start_hour e then false
  else if now_hour now >? end_hour e then false
  else if negb (now_minute now =? minute e) then false
  else true.

(** Strike 12 hour time, with 12 strikes at noon and midnight. *)
Definition strike_hour (now : timestamp) : Z :=
  let hour := now_hour now mod 12 in
  if hour =? 0 then 12 else hour.

(** The argument of [playsound] for a due event. *)
Definition sound_of (now : timestamp) (e : event) : string :=
  if String.eqb (file e) "Strike"
  then file_path +:+ "Strike" +:+ Py.str (strike_hour now) +:+ ".mp3"
  else file_path +:+ file e +:+ ".mp3".

(** ** Control flow of the input loop *)

(** How a piece of the body of the input loop ends: it falls through to the
    next statement with a value, it leaves the loop by [break], or it raises
    and the [except] clause of the loop takes over. Each carries what was
    printed on the way. *)
Inductive ctl (A : Type) : Type :=
| Go (out : list output) (a : A)
| Brk (out : list output)
| Exc (out : list output).
Arguments Go {A} out a.
Arguments Brk {A} out.
Arguments Exc {A} out.

Definition ctl_say {A} (o : list output) (c : ctl A) : ctl A :=
  match c with
  | Go o' a => Go (o ++ o') a
  | Brk o' => Brk (o ++ o')
  | Exc o' => Exc (o ++ o')
  end.

#[export] Instance ctl_ret : MRet ctl := fun A a => Go [] a.
#[export] Instance ctl_bind : MBind ctl := fun A B k c =>
  match c with
  | Go o a => ctl_say o (k a)
  | Brk o => Brk o
  | Exc o => Exc o
  end.

(** [print(o)] and go on. *)
Definition say (o : output) : ctl unit := Go [o] tt.

(** [print(o); break] *)
Definition break {A} (o : output) : ctl A := Brk [o].

(** A Python operation that may raise. *)
Definition try {A} (r : option A) : ctl A :=
  match r with Some a => Go [] a | None => Exc [] end.

(** ** The schedule operations of the editor *)

(** How a delete request ends. *)
Inductive delete_outcome : Type :=
| Deleted (e : event)    (* [schedule.pop(line_number-1)] returned [e] *)
| NoLineToDelete         (* [pop] raised: "No line ... to delete" is printed *)
| NothingToDelete.       (* the schedule is empty: nothing is done or printed *)

(** Line number only is a request to delete. *)
Definition delete_line (line_number : Z) (schedule : list event)
  : delete_outcome * list event :=
  if (0 <? length schedule)%nat then
    match Py.pop schedule (line_number - 1) with
    | Some (e, schedule') => (Deleted e, schedule')
    | None => (NoLineToDelete, schedule)
    end
  else (NothingToDelete, schedule).

Definition delete_printed (line_number : Z) (o : delete_outcome) : list output :=
  match o with
  | NoLineToDelete => [NoLine line_number]
  | _ => []
  end.

(** Append the event to or insert into the schedule; [None] when the
    assignment raises. *)
Definition upsert (line_number : Z) (ev : event) (schedule : list event)
  : option (list event) :=
  if line_number - 1 >=? Z.of_nat (length schedule)
  then Some (schedule ++ [ev])
  else Py.setitem schedule (line_number - 1) ev.

(** ** Parsing one input line *)

(** The second field: a hard date or a weekday range. The result is
    [(date, start_day, end_day)]. *)
Definition parse_days (field : string) : ctl (string * Z * Z) :=
  if Py.contains "/" field then
    if negb (String.length field =? 8)%nat then break ErrDate
    else
      let parts := Py.split "/" field in
      month ← try (p ← parts !! 0%nat; Py.int p);
      day ← try (p ← parts !! 1%nat; Py.int p);
      year ← try (p ← parts !! 2%nat; Py.int p);
      if (month <? 0) || (month >? 12) then break (ErrMonth month)
      else if (day <? 0) || (day >? 31) then break (ErrDay day)
      else if year <? 21 then break (ErrYear year)
      else mret (field, 8, 8)
  else
    let days := Py.split "-" field in
    let start_day := day_dict !! hd "" days in
    end_day ←
      (if (length days =? 2)%nat then mret (day_dict !! (days !!! 1%nat))
       else if (2 <? length days)%nat then break ErrWeekdayList
       else mret start_day);
    match start_day, end_day with
    | Some s, Some e => mret ("", s, e)
    | _, _ => break ErrWeekday
    end.

(** The third field: an hour or an hour range. An end hour out of range
    is reported, and parsing goes on. *)
Definition parse_hours (hours : string) : ctl (Z * Z) :=
  let parts := Py.split "-" hours in
  let start_hour := hd "" parts in
  end_hour ←
    (if (length parts =? 2)%nat then mret (parts !!! 1%nat)
     else if (2 <? length parts)%nat then break ErrHourRange
     else mret start_hour);
  start_hour ←
    (if Py.isnumeric start_hour then try (Py.int start_hour)
     else break (ErrStartHourNumeric start_hour));
  _ ← (if (start_hour <? 0) || (start_hour >? 23)
       then break (ErrStartHour start_hour) else mret tt);
  end_hour ←
    (if Py.isnumeric end_hour then try (Py.int end_hour)
     else break (ErrEndHourNumeric end_hour));
  _ ← (if (end_hour <? 0) || (end_hour >? 23)
       then say (ErrEndHour end_hour) else mret tt);
  mret (start_hour, end_hour).

(** The fourth field. [minute.isnumeric] is not called, so the test in
    front of [int(minute)] always passes. *)
Definition parse_minute (field : string) : ctl Z :=
  minute ← try (Py.int field);
  if (minute <? 0) || (minute >? 59) then break (ErrMinute minute)
  else mret minute.

Definition strike_file (i : nat) : string :=
  file_path +:+ "Strike" +:+ Py.str (Z.of_nat i + 1) +:+ ".mp3".

Section Editor.

(** [open(name, "r")] returns. *)
Variable can_open : string → bool.

(** Striking requires twelve files: the first one missing is reported
    and the search stops; the input line is kept. *)
Fixpoint strike_files (names : list string) : list output :=
  match names with
  | [] => []
  | name :: rest =>
      if can_open name then strike_files rest else [ErrFileMissing name]
  end.

(** The fifth field: the Strike keyword or a file name. *)
Definition check_file (file : string) : ctl unit :=
  if String.eqb (Py.lower file) "strike"
  then Go (strike_files (strike_file <$> seq 0 12)) tt
  else
    let file_name :=
      if Py.endswith (Py.lower file) ".mp3" then file_path +:+ file
      else file_path +:+ file +:+ ".mp3" in
    if can_open file_name then mret tt else break (ErrFileNotFound file_name).

(** The event of a complete input line; [fields] is
    [command.split(" ")], of length five or more. *)
Definition parse_event (command : string) (fields : list string) : ctl event :=
  '(date, start_day, end_day) ← parse_days (fields !!! 1%nat);
  '(start_hour, end_hour) ← parse_hours (fields !!! 2%nat);
  minute ← parse_minute (fields !!! 3%nat);
  let file := Py.splitn " " command 4 !!! 4%nat in
  _ ← check_file file;
  mret (Event date start_day end_day start_hour end_hour minute file).

(** One pass through the body of the input loop, from the return of
    [input()] on. *)
Record step : Type := Step {
  sched : list event;      (* the schedule afterwards *)
  printed : list output;
  broke : bool             (* left by [break]: the schedule is shown again *)
}.

Definition input_line (command : string) (schedule : list event) : step :=
  let fields := Py.split " " command in
  let first := hd "" fields in
  if String.eqb first "?" then Step schedule [Instructions] true
  else if String.eqb first "" then
    match show_schedule schedule with
    | Some t => Step schedule [t] true
    | None => Step schedule [ErrUnanticipated] false
    end
  else if negb (Py.isnumeric first) then Step schedule [ErrLineNumber] true
  else
    match Py.int first with
    | None => Step schedule [ErrUnanticipated] false
    | Some line_number =>
        if (length fields =? 1)%nat then
          let '(o, schedule') := delete_line line_number schedule in
          Step schedule' (delete_printed line_number o) true
        else if (length fields <? 5)%nat then
          Step schedule [ErrFiveItems] true
        else
          match parse_event command fields with
          | Go out ev =>
              match upsert line_number ev schedule with
              | Some schedule' => Step schedule' out false
              | None => Step schedule (out ++ [ErrUnanticipated]) false
              end
          | Brk out => Step schedule out true
          | Exc out => Step schedule (out ++ [ErrUnanticipated]) false
          end
    end.

(** The input loops of [main()] on the lines typed, starting and ending
    in [input()]: after a [break] the schedule is shown again, outside the
    [try], where a failure ends the thread; then comes the next prompt. *)
Fixpoint main_loop (commands : list string) (schedule : list event)
  : list event * list output :=
  match commands with
  | [] => (schedule, [])
  | command :: rest =>
      let st := input_line command schedule in
      if broke st then
        match show_schedule (sched st) with
        | Some t =>
            let '(s, o) := main_loop rest (sched st) in
            (s, printed st ++ BlankLine :: t :: Prompt :: o)
        | None => (sched st, printed st ++ [BlankLine])
        end
      else
        let '(s, o) := main_loop rest (sched st) in
        (s, printed st ++ Prompt :: o)
  end.

End Editor.

(** ** The playout thread *)

Section Playout.

Variable can_open : string → bool.

(** [playsound(name)] returns when play is done ([true]) or raises. *)
Variable playsound : string → bool.

(** The lines typed into the editor while the scan is at the i-th event
    (for instance while the sound of the event before plays), and the
    clock read during the i-th pass through the loop body. *)
Variable typed : nat → list string.
Variable clock : nat → timestamp.

(** How the [for] loop over [range(0, len(schedule))] ends: it runs to
    its end, or the body raises at index [i]. *)
Inductive scan_end : Type :=
| Scanned
| Raised (i : nat).

(** The passes [i, i+1, ..., i+todo-1] of the loop body over the shared
    schedule: the length was read once, before the first pass, and each
    pass indexes the list as it is then. *)
Fixpoint scan (todo i : nat) (schedule : list event)
  : scan_end * list event * list output :=
  match todo with
  | O => (Scanned, schedule, [])
  | S todo' =>
      let '(schedule, edited) := main_loop can_open (typed i) schedule in
      match schedule !! i with
      | None => (Raised i, schedule, edited)
      | Some e =>
          if is_due (clock i) e then
            if playsound (sound_of (clock i) e) then
              let '(r, s, out) := scan todo' (S i) schedule in
              (r, s, edited ++ Played (sound_of (clock i) e) :: out)
            else (Raised i, schedule, edited)
          else
            let '(r, s, out) := scan todo' (S i) schedule in
            (r, s, edited ++ out)
      end
  end.

(** One cycle of the outer [while True] of [playout()], after the wait
    for second 00 and before the sleep. *)
Record tick_result : Type := Tick {
  store : list event;      (* the schedule afterwards *)
  trace : list output;
  alive : bool             (* [false]: the [except] clause itself raised
                              and the thread ended *)
}.

(** The [except] clause: the prints, [show_schedule()], then
    [schedule.pop(i)]. *)
Definition mop_up (i : nat) (schedule : list event) (out : list output)
  : tick_result :=
  match schedule !! i with
  | None => Tick schedule (out ++ [InternalError]) false
  | Some e =>
      let report :=
        [InternalError; EventLine (Z.of_nat i + 1) e; EventDeleted (Z.of_nat i + 1)] in
      match show_schedule schedule with
      | None => Tick schedule (out ++ report) false
      | Some t => Tick (delete i schedule) (out ++ report ++ [t; Prompt]) true
      end
  end.

Definition tick (schedule : list event) : tick_result :=
  match scan (length schedule) 0 schedule with
  | (Scanned, s, out) => Tick s out true
  | (Raised i, s, out) => mop_up i s out
  end.

End Playout.

(** [playout()]: the cycles of its [while True] loop, one per minute
    watched, each with the lines typed during its scan and with its clock.
    The loop goes on for as long as the thread lives. *)
Fixpoint playout (can_open playsound : string → bool)
    (cycles : list ((nat → list string) * (nat → timestamp)))
    (schedule : list event) : tick_result :=
  match cycles with
  | [] => Tick schedule [] true
  | (typed, clock) :: rest =>
      let r := tick can_open playsound typed clock schedule in
      if alive r then
        let r' := playout can_open playsound rest (store r) in
        Tick (store r') (trace r ++ trace r') (alive r')
      else r
  end.

(** No line is typed during the scan. *)
Definition quiet : nat → list string := fun _ => [].

(** The sounds of the events of [l] due at their turn, [l] starting at
    index [i] of the schedule. *)
Fixpoint due_sounds (clock : nat → timestamp) (i : nat) (l : list event) : list string :=
  match l with
  | [] => []
  | e :: rest =>
      (if is_due (clock i) e then [sound_of (clock i) e] else [])
      ++ due_sounds clock (S i) rest
  end.

(** ** The invariants of the data model *)

(** Either a weekday range within su..sa and no date, or a date and the
    sentinel 8 in both weekday fields. *)
Definition valid_days (e : event) : Prop :=
  (date e = "" ∧ 0 ≤ start_day e ≤ 6 ∧ 0 ≤ end_day e ≤ 6) ∨
  (date e ≠ "" ∧ start_day e = 8 ∧ end_day e = 8).

(** What the editor does enforce on the hours and the minute. *)
Definition valid_times (e : event) : Prop :=
  0 ≤ start_hour e ≤ 23 ∧ 0 ≤ minute e ≤ 59.

Definition valid_event (e : event) : Prop := valid_days e ∧ valid_times e.

#[export] Instance valid_event_dec (e : event) : Decision (valid_event e).
Proof. unfold valid_event, valid_days, valid_times. apply _. Defined.

(** ** What can be displayed, and what is only a warning *)

(** [show_schedule()] can print the line of the rule: the date is set, or
    both weekday numbers index [day_list], from the front or from the
    end. *)
Definition displayable (e : event) : Prop :=
  date e ≠ "" ∨ (-7 ≤ start_day e ≤ 6 ∧ -7 ≤ end_day e ≤ 6).

(** The two messages after which the input line is processed further. *)
Definition is_warning (o : output) : bool :=
  match o with
  | ErrEndHour _ | ErrFileMissing _ => true
  | _ => false
  end.

(** ** What a trace shows *)




(** ** Sample data *)

Definition sunday_5am : timestamp := Timestamp "11/01/26" 0 5 0.
Definition sunday_6am : timestamp := Timestamp "11/01/26" 0 6 0.

(** Every file can be opened; every sound plays. *)
Definition any_file : string → bool := λ _, true.

(** Only the twelve strike files are installed. *)
Definition strike_files_only : string → bool :=
  λ name, bool_decide (name ∈ strike_file <$> seq 0 12).

Definition all_but (missing : string) : string → bool :=
  λ name, negb (String.eqb name missing).

Definition bell (name : string) : event := Event "" 0 6 0 23 0 name.


(** * Properties *)

(** ** Python helpers at work *)

Example split_ex : Py.split " " "1 su  5" = ["1"; "su"; ""; "5"].
Proof. reflexivity. Qed.

Example splitn_ex : Py.splitn " " "1 su 5 0 Ave Maria" 4 = ["1"; "su"; "5"; "0"; "Ave Maria"].
Proof. reflexivity. Qed.

Example int_ex :
  Py.int "007" = Some 7 /\ Py.int "-5" = Some (-5) /\ Py.int "1_0" = Some 10 /\
  Py.int "" = None /\ Py.int "1_" = None /\ Py.int "x" = None.
Proof. repeat split; reflexivity. Qed.

Example str_ex : Py.str 0 = "0" /\ Py.str 12 = "12" /\ Py.str (-3) = "-3".
Proof. repeat split; reflexivity. Qed.

Example pop_ex :
  Py.pop [1; 2; 3] (-1) = Some (3, [1; 2]) /\ Py.pop [1; 2; 3] 3 = None /\
  Py.pop [1; 2; 3] (-4) = None.
Proof. repeat split; reflexivity. Qed.

(** ** Python list indexing *)

Lemma index_in_range (len : nat) (k : Z) :
  0 ≤ k < Z.of_nat len → Py.index len k = Some (Z.to_nat k).
Proof.
  intros Hk. unfold Py.index.
  destruct (Z.ltb_spec k 0); [lia|].
  destruct (Z.leb_spec 0 k); [|lia].
  destruct (Z.ltb_spec k (Z.of_nat len)); [done|lia].
Qed.

Lemma index_too_large (len : nat) (k : Z) :
  Z.of_nat len ≤ k → Py.index len k = None.
Proof.
  intros Hk. unfold Py.index.
  destruct (Z.ltb_spec k 0); [lia|].
  destruct (Z.ltb_spec k (Z.of_nat len)); [lia|].
  by rewrite andb_false_r.
Qed.

Lemma index_from_end (len : nat) (k : Z) :
  - Z.of_nat len ≤ k < 0 → Py.index len k = Some (Z.to_nat (k + Z.of_nat len)).
Proof.
  intros Hk. unfold Py.index.
  destruct (Z.ltb_spec k 0); [|lia].
  destruct (Z.leb_spec 0 (k + Z.of_nat len)); [|lia].
  destruct (Z.ltb_spec (k + Z.of_nat len) (Z.of_nat len)); [done|lia].
Qed.

Lemma pop_in_range {A} (l : list A) (k : Z) (x : A) :
  0 ≤ k → l !! Z.to_nat k = Some x →
  Py.pop l k = Some (x, delete (Z.to_nat k) l).
Proof.
  intros Hk Hx. unfold Py.pop.
  rewrite index_in_range; [|apply lookup_lt_Some in Hx; lia].
  simpl. by rewrite Hx.
Qed.

Lemma pop_too_large {A} (l : list A) (k : Z) :
  Z.of_nat (length l) ≤ k → Py.pop l k = None.
Proof. intros Hk. unfold Py.pop. by rewrite index_too_large. Qed.

Lemma setitem_in_range {A} (l : list A) (k : Z) (x : A) :
  0 ≤ k < Z.of_nat (length l) → Py.setitem l k x = Some (<[Z.to_nat k := x]> l).
Proof. intros Hk. unfold Py.setitem. by rewrite index_in_range. Qed.

(** ** The matcher *)

(** What the chain of tests of the loop body lets through. *)
Lemma is_due_spec (now : timestamp) (e : event) :
  is_due now e = true ↔
    (date e = "" ∨ now_date now = date e) ∧
    (start_day e < 8 → start_day e ≤ now_weekday now) ∧
    (end_day e < 8 → now_weekday now ≤ end_day e) ∧
    start_hour e ≤ now_hour now ≤ end_hour e ∧
    now_minute now = minute e.
Proof.
  unfold is_due. rewrite !Z.gtb_ltb.
  destruct (String.eqb_spec (date e) "") as [Hd|Hd];
    destruct (String.eqb_spec (now_date now) (date e)) as [Hn|Hn];
    destruct (Z.ltb_spec (start_day e) 8);
    destruct (Z.ltb_spec (now_weekday now) (start_day e));
    destruct (Z.ltb_spec (end_day e) 8);
    destruct (Z.ltb_spec (end_day e) (now_weekday now));
    destruct (Z.ltb_spec (now_hour now) (start_hour e));
    destruct (Z.ltb_spec (end_hour e) (now_hour now));
    destruct (Z.eqb_spec (now_minute now) (minute e));
    simpl; (split;
      [ intros Hx; try discriminate Hx; repeat split; try lia; tauto
      | intros ([Hd'|Hd'] & Hs & He & Hh & Hm);
        try reflexivity; try congruence; lia ]).
Qed.

(** C1, as stated, fails: a rule with an empty date and the sentinel 8 in
    both weekday fields is due whenever hour and minute match. Here at
    05:00 on a Sunday. *)
Lemma sentinel_rule_is_due :
  ¬ (∀ (e : event) (t : timestamp),
       date e = "" → start_day e = 8 → end_day e = 8 → is_due t e = false).
Proof.
  intros H.
  specialize (H (Event "" 8 8 0 23 0 "Bell") (Timestamp "11/01/26" 0 5 0)
                eq_refl eq_refl eq_refl).
  vm_compute in H. discriminate.
Qed.

(** C1, amended: the sentinel 8 in the weekday fields switches the weekday
    tests off. Such a rule is due exactly when its date is empty or is
    today's, the hour lies in the hour range and the minute is equal. *)
Theorem sentinel_skips_weekday_tests (t : timestamp) (d : string)
    (sh eh m : Z) (f : string) :
  is_due t (Event d 8 8 sh eh m f) = true ↔
    (d = "" ∨ now_date t = d) ∧ sh ≤ now_hour t ≤ eh ∧ now_minute t = m.
Proof. rewrite is_due_spec. simpl. intuition lia. Qed.

(** C2: a rule with no fixed date and a weekday range [a..b],
    0 <= a <= b <= 6, is due at [t] exactly when the weekday of [t] lies in
    [a..b], its hour in [start_hour..end_hour] and its minute is the
    rule's. *)
Theorem weekday_rule_due_iff (t : timestamp) (a b sh eh m : Z) (f : string) :
  0 ≤ a → a ≤ b → b ≤ 6 →
  is_due t (Event "" a b sh eh m f) = true ↔
    a ≤ now_weekday t ≤ b ∧ sh ≤ now_hour t ≤ eh ∧ now_minute t = m.
Proof. intros Ha Hab Hb. rewrite is_due_spec. simpl. intuition lia. Qed.

Lemma weekday_rule_due_iff_witness :
  is_due (Timestamp "11/01/26" 0 9 0) (Event "" 0 6 9 9 0 "Bell") = true ↔
    0 ≤ 0 ≤ 6 ∧ 9 ≤ 9 ≤ 9 ∧ 0 = 0.
Proof.
  apply (weekday_rule_due_iff (Timestamp "11/01/26" 0 9 0) 0 6 9 9 0 "Bell"); lia.
Defined.

(** ** Strike hour expansion *)

(** C8: the strike count is the clock hour on the 12 hour dial, 12 for the
    hours 0 and 12: it lies in 1..12 and is the hour modulo 12; hours 0 and
    12 give the strike sound numbered "12" and hour 13 the one numbered
    "1". *)
Theorem strike_hour_expansion :
  (∀ now : timestamp,
     1 ≤ strike_hour now ≤ 12 ∧
     strike_hour now mod 12 = now_hour now mod 12 ∧
     ∀ d sd ed sh eh m,
       sound_of now (Event d sd ed sh eh m "Strike")
       = file_path +:+ "Strike" +:+ Py.str (strike_hour now) +:+ ".mp3") ∧
  (∀ d w m,
     Py.str (strike_hour (Timestamp d w 0 m)) = "12" ∧
     Py.str (strike_hour (Timestamp d w 12 m)) = "12" ∧
     Py.str (strike_hour (Timestamp d w 13 m)) = "1").
Proof.
  split; [|intros d w m; repeat split; reflexivity].
  intros now. unfold sound_of, strike_hour. cbn [file]. 
  replace (String.eqb "Strike" "Strike") with true by reflexivity.
  pose proof (Z.mod_pos_bound (now_hour now) 12 ltac:(lia)) as Hm.
  destruct (Z.eqb_spec (now_hour now mod 12) 0) as [H0|H0].
  - rewrite H0. repeat split; try lia; reflexivity.
  - repeat split; try lia. by rewrite Z.mod_mod.
Qed.

(** ** The schedule operations *)

(** C6: for a position [pos >= 1], insert-or-replace never raises; it
    appends the rule when [pos] exceeds the length and replaces the rule at
    [pos] otherwise; afterwards the rule is at index [pos-1] whenever
    [pos <= length + 1] held before. *)
Theorem upsert_spec (pos : Z) (r : event) (schedule : list event) :
  1 ≤ pos →
  ∃ schedule',
    upsert pos r schedule = Some schedule' ∧
    (Z.of_nat (length schedule) < pos → schedule' = schedule ++ [r]) ∧
    (pos ≤ Z.of_nat (length schedule) →
       schedule' = <[Z.to_nat (pos - 1) := r]> schedule ∧
       length schedule' = length schedule) ∧
    (pos ≤ Z.of_nat (length schedule) + 1 →
       schedule' !! Z.to_nat (pos - 1) = Some r).
Proof.
  intros Hpos. unfold upsert. rewrite Z.geb_leb.
  destruct (Z.leb_spec (Z.of_nat (length schedule)) (pos - 1)) as [Hge|Hlt].
  - exists (schedule ++ [r]). repeat split; try lia; try done.
    intros Hle. replace (Z.to_nat (pos - 1)) with (length schedule) by lia.
    by rewrite list_lookup_middle.
  - rewrite setitem_in_range by lia.
    exists (<[Z.to_nat (pos - 1) := r]> schedule).
    repeat split; try lia; try done.
    + by rewrite length_insert.
    + intros _. apply list_lookup_insert_eq. lia.
Qed.

Lemma upsert_spec_witness :
  ∃ schedule',
    upsert 6 (Event "" 0 0 9 9 0 "Bell") default_schedule = Some schedule' ∧
    (Z.of_nat (length default_schedule) < 6 →
       schedule' = default_schedule ++ [Event "" 0 0 9 9 0 "Bell"]) ∧
    (6 ≤ Z.of_nat (length default_schedule) →
       schedule' = <[Z.to_nat (6 - 1) := Event "" 0 0 9 9 0 "Bell"]> default_schedule ∧
       length schedule' = length default_schedule) ∧
    (6 ≤ Z.of_nat (length default_schedule) + 1 →
       schedule' !! Z.to_nat (6 - 1) = Some (Event "" 0 0 9 9 0 "Bell")).
Proof. apply (upsert_spec 6 (Event "" 0 0 9 9 0 "Bell") default_schedule). lia. Defined.

(** C7, as stated, fails: a delete request on an empty schedule does not
    fail. Line 1 asked of the empty schedule prints nothing and leaves the
    loop as a delete that found its line does; the missing line is reported
    only when the schedule holds some rule. *)
Lemma empty_schedule_delete_is_silent :
  input_line any_file "1" [] = Step [] [] true ∧
  delete_line 1 [] = (NothingToDelete, []) ∧
  ¬ (∀ (pos : Z) (schedule : list event),
       1 ≤ pos →
       (delete_printed pos (delete_line pos schedule).1 = [NoLine pos] ↔
          schedule = [] ∨ Z.of_nat (length schedule) < pos)).
Proof.
  split; [reflexivity|]. split; [reflexivity|].
  intros H. destruct (H 1 [] ltac:(lia)) as [_ H'].
  specialize (H' (or_introl eq_refl)). discriminate H'.
Qed.

(** C7, amended: for a position [pos >= 1], a delete request reports a
    missing line exactly when the schedule is not empty and [pos] exceeds
    its length; on an empty schedule it does nothing and prints nothing. In
    both cases the schedule is unchanged. Otherwise, for [pos] up to the
    length, nothing is printed, the rule at [pos] is removed and the
    schedule is one shorter. *)
Theorem delete_line_outcomes (pos : Z) (schedule : list event) :
  1 ≤ pos →
  (delete_printed pos (delete_line pos schedule).1 = [NoLine pos] ↔
     schedule ≠ [] ∧ Z.of_nat (length schedule) < pos) ∧
  (schedule = [] →
     delete_line pos schedule = (NothingToDelete, schedule) ∧
     delete_printed pos (delete_line pos schedule).1 = []) ∧
  (schedule ≠ [] → Z.of_nat (length schedule) < pos →
     delete_line pos schedule = (NoLineToDelete, schedule)) ∧
  (pos ≤ Z.of_nat (length schedule) →
     ∃ e, schedule !! Z.to_nat (pos - 1) = Some e ∧
          (delete_line pos schedule).1 = Deleted e ∧
          delete_printed pos (delete_line pos schedule).1 = [] ∧
          (delete_line pos schedule).2
          = take (Z.to_nat (pos - 1)) schedule ++ drop (S (Z.to_nat (pos - 1))) schedule ∧
          (length (delete_line pos schedule).2 + 1 = length schedule)%nat).
Proof.
  intros Hpos. unfold delete_line.
  destruct (Nat.ltb_spec 0 (length schedule)) as [Hne|Hempty].
  - assert (schedule ≠ []) as Hnil by (intros ->; simpl in Hne; lia).
    destruct (Z_lt_le_dec (Z.of_nat (length schedule)) pos) as [Hout|Hin].
    + rewrite pop_too_large by lia. simpl.
      repeat split; try done. lia.
    + destruct (lookup_lt_is_Some_2 schedule (Z.to_nat (pos - 1)) ltac:(lia))
        as [e He].
      rewrite (pop_in_range _ _ e) by (done || lia). simpl.
      split; [|split; [|split]]; try done.
      * split; [done|lia].
      * lia.
      * intros _. exists e. do 3 (split; [done|]).
        rewrite delete_take_drop. split; [done|].
        rewrite length_app, length_take, length_drop.
        apply lookup_lt_Some in He. lia.
  - destruct schedule; [|simpl in Hempty; lia]. simpl.
    split; [|split; [|split]]; try done.
    + split; [done|]. by intros [? _].
    + lia.
Qed.

Lemma delete_line_outcomes_witness :
  (delete_printed 9 (delete_line 9 default_schedule).1 = [NoLine 9] ↔
     default_schedule ≠ [] ∧ Z.of_nat (length default_schedule) < 9) ∧
  (default_schedule = [] →
     delete_line 9 default_schedule = (NothingToDelete, default_schedule) ∧
     delete_printed 9 (delete_line 9 default_schedule).1 = []) ∧
  (default_schedule ≠ [] → Z.of_nat (length default_schedule) < 9 →
     delete_line 9 default_schedule = (NoLineToDelete, default_schedule)) ∧
  (9 ≤ Z.of_nat (length default_schedule) →
     ∃ e, default_schedule !! Z.to_nat (9 - 1) = Some e ∧
          (delete_line 9 default_schedule).1 = Deleted e ∧
          delete_printed 9 (delete_line 9 default_schedule).1 = [] ∧
          (delete_line 9 default_schedule).2
          = take (Z.to_nat (9 - 1)) default_schedule
            ++ drop (S (Z.to_nat (9 - 1))) default_schedule ∧
          (length (delete_line 9 default_schedule).2 + 1 = length default_schedule)%nat).
Proof. apply (delete_line_outcomes 9 default_schedule). lia. Defined.

(** C10: on a schedule that is not empty, the delete request with line
    number 0 does not report a missing line: [pop(-1)] removes the last
    rule, and the schedule is one shorter. *)
Theorem delete_line_zero_removes_last (can_open : string → bool)
    (schedule : list event) :
  schedule ≠ [] →
  ∃ e, last schedule = Some e ∧
       delete_line 0 schedule = (Deleted e, removelast schedule) ∧
       schedule = removelast schedule ++ [e] ∧
       (length (removelast schedule) + 1 = length schedule)%nat ∧
       input_line can_open "0" schedule = Step (removelast schedule) [] true.
Proof.
  intros Hne.
  destruct (exists_last Hne) as (front & e & ->).
  exists e.
  assert (Hdel : delete_line 0 (front ++ [e]) = (Deleted e, front)).
  { unfold delete_line. rewrite length_app. simpl.
    destruct (Nat.ltb_spec 0 (length front + 1)); [|lia].
    unfold Py.pop. rewrite index_from_end by (rewrite length_app; simpl; lia).
    rewrite length_app. simpl.
    replace (Z.to_nat (0 - 1 + Z.of_nat (length front + 1))) with (length front) by lia.
    rewrite list_lookup_middle by done. simpl.
    rewrite delete_middle. by rewrite app_nil_r. }
  rewrite removelast_last, last_snoc, length_app. simpl.
  repeat split; try done.
  unfold input_line.
  change (Py.split " " "0") with ["0"%string].
  change (Py.isnumeric (hd "" ["0"%string])) with true.
  change (Py.int (hd "" ["0"%string])) with (Some 0).
  cbn -[delete_line]. by rewrite Hdel.
Qed.

Lemma delete_line_zero_removes_last_witness :
  ∃ e, last default_schedule = Some e ∧
       delete_line 0 default_schedule = (Deleted e, removelast default_schedule) ∧
       default_schedule = removelast default_schedule ++ [e] ∧
       (length (removelast default_schedule) + 1 = length default_schedule)%nat ∧
       input_line (λ _, true) "0" default_schedule
       = Step (removelast default_schedule) [] true.
Proof.
  apply (delete_line_zero_removes_last (λ _, true) default_schedule). discriminate.
Defined.

(** ** What the editor guarantees *)

Lemma ctl_bind_Go {A B} (c : ctl A) (k : A → ctl B) (out : list output) (b : B) :
  c ≫= k = Go out b →
  ∃ o1 a o2, c = Go o1 a ∧ k a = Go o2 b ∧ out = o1 ++ o2.
Proof.
  destruct c as [o1 a| |]; [|done|done].
  unfold mbind, ctl_bind. destruct (k a) as [o2 b'| |] eqn:Hk; simpl; [|done|done].
  intros [= <- <-]. by exists o1, a, o2.
Qed.

Lemma day_dict_range (k : string) (v : Z) : day_dict !! k = Some v → 0 ≤ v ≤ 6.
Proof.
  unfold day_dict. intros H. apply elem_of_list_to_map_2 in H.
  repeat (apply elem_of_cons in H as [[= _ ->]|H]; [lia|]).
  by apply elem_of_nil in H.
Qed.

Lemma parse_days_Go (field : string) (out : list output) (d : string) (s e : Z) :
  parse_days field = Go out (d, s, e) →
  (d = "" ∧ 0 ≤ s ≤ 6 ∧ 0 ≤ e ≤ 6) ∨ (d ≠ "" ∧ s = 8 ∧ e = 8).
Proof.
  unfold parse_days. destruct (Py.contains "/" field) eqn:Hc.
  - destruct (negb _); [done|]. intros H.
    apply ctl_bind_Go in H as (? & month & ? & _ & H & _).
    apply ctl_bind_Go in H as (? & day & ? & _ & H & _).
    apply ctl_bind_Go in H as (? & year & ? & _ & H & _).
    repeat (destruct (_ || _) in H; [done|]).
    destruct (year <? 21); [done|].
    injection H as _ <- <- <-. right. split; [|done].
    intros ->. discriminate Hc.
  - intros H. apply ctl_bind_Go in H as (? & ed & ? & Hed & H & _).
    destruct (day_dict !! hd "" (Py.split "-" field)) as [s'|] eqn:Hs; [|done].
    destruct ed as [e'|]; [|done].
    injection H as _ <- <- <-. left. split; [done|].
    split; [by eapply day_dict_range|].
    destruct (_ =? 2)%nat.
    + injection Hed as _ Hed. by eapply day_dict_range.
    + destruct (2 <? _)%nat; [done|].
      injection Hed as _ <-. by eapply day_dict_range.
Qed.

Lemma parse_hours_Go (hours : string) (out : list output) (sh eh : Z) :
  parse_hours hours = Go out (sh, eh) → 0 ≤ sh ≤ 23.
Proof.
  unfold parse_hours. intros H.
  apply ctl_bind_Go in H as (? & end_hour & ? & _ & H & _).
  apply ctl_bind_Go in H as (? & start_hour & ? & _ & H & _).
  apply ctl_bind_Go in H as (? & [] & ? & Hs & H & _).
  apply ctl_bind_Go in H as (? & end_hour' & ? & _ & H & _).
  apply ctl_bind_Go in H as (? & [] & ? & _ & H & _).
  injection H as _ <- <-.
  destruct (Z.ltb_spec start_hour 0); [done|].
  destruct (Z.gtb_spec start_hour 23); [done|]. lia.
Qed.

Lemma parse_minute_Go (field : string) (out : list output) (m : Z) :
  parse_minute field = Go out m → 0 ≤ m ≤ 59.
Proof.
  unfold parse_minute. intros H.
  apply ctl_bind_Go in H as (? & minute & ? & _ & H & _).
  destruct (Z.ltb_spec minute 0); [done|].
  destruct (Z.gtb_spec minute 59); [done|].
  injection H as _ <-. lia.
Qed.

(** A line that passes the editor's checks makes a rule with valid days,
    start hour and minute. *)
Lemma parse_event_valid (can_open : string → bool) (command : string)
    (fields : list string) (out : list output) (ev : event) :
  parse_event can_open command fields = Go out ev → valid_event ev.
Proof.
  unfold parse_event. intros H.
  apply ctl_bind_Go in H as (? & [[d s] e] & ? & Hd & H & _).
  apply ctl_bind_Go in H as (? & [sh eh] & ? & Hh & H & _).
  apply ctl_bind_Go in H as (? & m & ? & Hm & H & _).
  apply ctl_bind_Go in H as (? & [] & ? & _ & H & _).
  injection H as _ <-.
  apply parse_days_Go in Hd. apply parse_hours_Go in Hh.
  apply parse_minute_Go in Hm. done.
Qed.

Lemma day_name_in_range (d : Z) : 0 ≤ d ≤ 6 → is_Some (Py.getitem day_list d).
Proof.
  intros Hd. unfold Py.getitem. rewrite index_in_range by (simpl; lia).
  simpl. apply lookup_lt_is_Some_2. simpl. lia.
Qed.

Lemma show_line_valid (i : nat) (e : event) : valid_days e → is_Some (show_line i e).
Proof.
  intros [(Hd & Hs & He)|(Hd & _)]; unfold show_line.
  - rewrite Hd. simpl.
    destruct (day_name_in_range _ Hs) as [d1 ->].
    destruct (day_name_in_range _ He) as [d2 ->]. by eexists.
  - destruct (String.eqb_spec (date e) ""); [done|]. by eexists.
Qed.

(** A schedule of rules with valid days can be displayed. *)
Lemma valid_schedule_is_shown (schedule : list event) :
  Forall valid_days schedule → is_Some (show_schedule schedule).
Proof.
  intros Hv. unfold show_schedule.
  assert (∀ i, is_Some (show_lines i schedule)) as Hlines.
  { induction Hv as [|e l He _ IH]; intros i; simpl; [by eexists|].
    destruct (show_line_valid i e He) as [ln ->].
    destruct (IH (S i)) as [ls ->]. by eexists. }
  destruct (Hlines 0%nat) as [ls ->]. by eexists.
Qed.

Lemma default_schedule_valid : Forall valid_event default_schedule.
Proof. apply (bool_decide_unpack _). vm_compute. exact I. Qed.

Lemma delete_line_valid (line_number : Z) (schedule : list event) :
  Forall valid_event schedule →
  Forall valid_event (delete_line line_number schedule).2.
Proof.
  intros Hv. unfold delete_line, Py.pop.
  destruct (0 <? length schedule)%nat; [|done].
  destruct (Py.index _ _) as [i|]; [|done]. simpl.
  destruct (schedule !! i); [|done]. simpl. by apply Forall_delete.
Qed.

Lemma upsert_valid (line_number : Z) (ev : event) (schedule schedule' : list event) :
  valid_event ev → Forall valid_event schedule →
  upsert line_number ev schedule = Some schedule' →
  Forall valid_event schedule'.
Proof.
  intros Hev Hv. unfold upsert, Py.setitem.
  destruct (_ >=? _).
  - intros [= <-]. apply Forall_app. split; [done|]. by constructor.
  - destruct (Py.index _ _) as [i|]; [|done]. simpl.
    intros [= <-]. by apply Forall_insert.
Qed.

(** Whatever is typed, the rules of the schedule keep valid days, start
    hour and minute. *)
Lemma input_line_valid (can_open : string → bool) (command : string)
    (schedule : list event) :
  Forall valid_event schedule →
  Forall valid_event (sched (input_line can_open command schedule)).
Proof.
  intros Hv. unfold input_line.
  repeat (case_match; simpl; try done).
  - match goal with
    | H : delete_line ?n schedule = _ |- _ =>
        pose proof (delete_line_valid n schedule Hv) as Hdel;
        by rewrite H in Hdel
    end.
  - eapply upsert_valid; [|done|done]. by eapply parse_event_valid.
Qed.

Lemma main_loop_valid (can_open : string → bool) (commands : list string)
    (schedule : list event) :
  Forall valid_event schedule →
  Forall valid_event (main_loop can_open commands schedule).1.
Proof.
  revert schedule. induction commands as [|c rest IH]; intros schedule Hv; [done|].
  simpl. pose proof (input_line_valid can_open c schedule Hv) as Hst.
  specialize (IH _ Hst).
  destruct (broke _); [destruct (show_schedule _); [|done]|];
    by destruct (main_loop can_open rest _).
Qed.

(** ** Two slips of the editor *)

(** C4 fails on the code: the editor accepts "strike" in any
    capitalisation after checking the twelve strike files, but stores the
    word as typed, and playout compares the stored word with "Strike"
    exactly. With only the strike files installed, the rule entered as
    "strike" is accepted, and when due it asks for the file strike.mp3,
    which fails, and the rule is deleted. *)
Theorem lowercase_strike_plays_literal_file :
  input_line strike_files_only "1 su-sa 0-23 0 strike" []
  = Step [Event "" 0 6 0 23 0 "strike"] [] false ∧
  sound_of sunday_5am (Event "" 0 6 0 23 0 "strike")
  = "/home/dave/Carillon/strike.mp3" ∧
  sound_of sunday_5am (Event "" 0 6 0 23 0 "STRIKE")
  = "/home/dave/Carillon/STRIKE.mp3" ∧
  sound_of sunday_5am (Event "" 0 6 0 23 0 "Strike")
  = "/home/dave/Carillon/Strike5.mp3" ∧
  tick strike_files_only strike_files_only quiet (λ _, sunday_5am)
       [Event "" 0 6 0 23 0 "strike"]
  = Tick []
         [InternalError; EventLine 1 (Event "" 0 6 0 23 0 "strike"); EventDeleted 1;
          Table ["Day(s) Hr(s) Min Tune"; "1: su-sa 0-23 0 strike"]; Prompt]
         true.
Proof. repeat split; vm_compute; reflexivity. Qed.

(** C5 fails on the code: an end hour out of range is reported and the
    rule is stored all the same, while a start hour out of range is
    rejected. *)
Theorem end_hour_out_of_range_is_stored :
  input_line any_file "1 su 5-99 0 Hour" default_schedule
  = Step (<[0%nat := Event "" 0 0 5 99 0 "Hour"]> default_schedule)
         [ErrEndHour 99] false ∧
  input_line any_file "1 su 99 0 Hour" default_schedule
  = Step default_schedule [ErrStartHour 99] true.
Proof. split; vm_compute; reflexivity. Qed.

(** ** The scan of the schedule *)

Section Scan.

Variable can_open : string → bool.
Variable playsound : string → bool.
Variable clock : nat → timestamp.

(** With no line typed, a scan whose due events all play runs to its end
    over the events it started with. *)
Lemma scan_quiet_all (l pre : list event) :
  Forall (λ s, playsound s = true) (due_sounds clock (length pre) l) →
  scan can_open playsound quiet clock (length l) (length pre) (pre ++ l)
  = (Scanned, pre ++ l, Played <$> due_sounds clock (length pre) l).
Proof.
  revert pre. induction l as [|e l IH]; intros pre Hp; [done|].
  simpl in *. rewrite list_lookup_middle by done.
  specialize (IH (pre ++ [e])).
  rewrite length_app, Nat.add_1_r, <- (assoc_L (++)) in IH. simpl in IH.
  destruct (is_due (clock (length pre)) e); simpl in *.
  - apply Forall_cons in Hp as [-> Hp]. by rewrite (IH Hp).
  - by rewrite (IH Hp).
Qed.

(** With no line typed, the scan ends at the first due event whose play
    raises; the events after it are not looked at. *)
Lemma scan_quiet_raise (mid pre : list event) (e : event) (post : list event) :
  Forall (λ s, playsound s = true) (due_sounds clock (length pre) mid) →
  is_due (clock (length pre + length mid)) e = true →
  playsound (sound_of (clock (length pre + length mid)) e) = false →
  scan can_open playsound quiet clock
       (length (mid ++ e :: post)) (length pre) (pre ++ mid ++ e :: post)
  = (Raised (length pre + length mid), pre ++ mid ++ e :: post,
     Played <$> due_sounds clock (length pre) mid).
Proof.
  revert pre. induction mid as [|m mid IH]; intros pre Hp Hdue Hfail.
  - simpl in *. rewrite Nat.add_0_r in *.
    rewrite list_lookup_middle by done. by rewrite Hdue, Hfail.
  - simpl in *. rewrite list_lookup_middle by done.
    specialize (IH (pre ++ [m])).
    rewrite length_app, Nat.add_1_r, <- (assoc_L (++)) in IH. simpl in IH.
    replace (length pre + S (length mid))%nat
      with (S (length pre) + length mid)%nat in * by lia.
    destruct (is_due (clock (length pre)) m); simpl in *.
    + apply Forall_cons in Hp as [-> Hp]. by rewrite (IH Hp Hdue Hfail).
    + by rewrite (IH Hp Hdue Hfail).
Qed.

End Scan.

(** ** A play that fails *)

(** C3, as stated, fails: two rules are due at 05:00 on a Sunday and the
    sound of the first cannot be played. The first rule is reported and
    deleted; the second, which is due and whose sound plays, is not played
    in that cycle. *)
Lemma failure_skips_later_rules :
  tick any_file (all_but "/home/dave/Carillon/A.mp3") quiet (λ _, sunday_5am)
       [bell "A"; bell "B"]
  = Tick [bell "B"]
         [InternalError; EventLine 1 (bell "A"); EventDeleted 1;
          Table ["Day(s) Hr(s) Min Tune"; "1: su-sa 0-23 0 A"; "2: su-sa 0-23 0 B"];
          Prompt]
         true ∧
  is_due sunday_5am (bell "B") = true ∧
  all_but "/home/dave/Carillon/A.mp3" (sound_of sunday_5am (bell "B")) = true ∧
  Played (sound_of sunday_5am (bell "B"))
    ∉ trace (tick any_file (all_but "/home/dave/Carillon/A.mp3") quiet
                  (λ _, sunday_5am) [bell "A"; bell "B"]).
Proof.
  split; [reflexivity|]. split; [reflexivity|]. split; [reflexivity|].
  vm_compute. intros H.
  repeat (apply elem_of_cons in H as [H|H]; [discriminate H|]).
  by apply elem_of_nil in H.
Qed.

(** The rule skipped at 05:00 is played by the cycle of 06:00: the loop
    goes on after the failure. *)
Example playout_resumes :
  playout any_file (all_but "/home/dave/Carillon/A.mp3")
          [(quiet, λ _, sunday_5am); (quiet, λ _, sunday_6am)]
          [bell "A"; bell "B"]
  = Tick [bell "B"]
         [InternalError; EventLine 1 (bell "A"); EventDeleted 1;
          Table ["Day(s) Hr(s) Min Tune"; "1: su-sa 0-23 0 A"; "2: su-sa 0-23 0 B"];
          Prompt;
          Played "/home/dave/Carillon/B.mp3"]
         true.
Proof. reflexivity. Qed.

(** C3, amended: when the play of a due rule raises during a scan in which
    no line is typed, the rules before it have been evaluated, the failure
    is reported with the position and the contents of the rule, the rule is
    deleted, and the scan ends there: no rule after it is evaluated in that
    cycle. The thread stays alive for the next cycle. *)
Theorem failure_ends_the_scan (can_open playsound : string → bool)
    (clock : nat → timestamp) (pre : list event) (e : event)
    (post : list event) (t : output) :
  Forall (λ s, playsound s = true) (due_sounds clock 0 pre) →
  is_due (clock (length pre)) e = true →
  playsound (sound_of (clock (length pre)) e) = false →
  show_schedule (pre ++ e :: post) = Some t →
  tick can_open playsound quiet clock (pre ++ e :: post)
  = Tick (pre ++ post)
         ((Played <$> due_sounds clock 0 pre)
          ++ [InternalError;
              EventLine (Z.of_nat (length pre) + 1) e;
              EventDeleted (Z.of_nat (length pre) + 1);
              t; Prompt])
         true.
Proof.
  intros Hpre Hdue Hfail Hshow. unfold tick.
  pose proof (scan_quiet_raise can_open playsound clock pre [] e post) as Hscan.
  simpl in Hscan. rewrite (Hscan Hpre Hdue Hfail).
  unfold mop_up. rewrite list_lookup_middle by done. rewrite Hshow.
  by rewrite delete_middle.
Qed.

Lemma failure_ends_the_scan_witness :
  tick any_file (all_but "/home/dave/Carillon/B.mp3") quiet (λ _, sunday_5am)
       ([bell "A"] ++ bell "B" :: [bell "C"])
  = Tick ([bell "A"] ++ [bell "C"])
         ((Played <$> due_sounds (λ _, sunday_5am) 0 [bell "A"])
          ++ [InternalError;
              EventLine (Z.of_nat (length [bell "A"]) + 1) (bell "B");
              EventDeleted (Z.of_nat (length [bell "A"]) + 1);
              Table ["Day(s) Hr(s) Min Tune"; "1: su-sa 0-23 0 A";
                     "2: su-sa 0-23 0 B"; "3: su-sa 0-23 0 C"];
              Prompt])
         true.
Proof.
  apply (failure_ends_the_scan any_file (all_but "/home/dave/Carillon/B.mp3")
           (λ _, sunday_5am) [bell "A"] (bell "B") [bell "C"]).
  - repeat constructor.
  - reflexivity.
  - reflexivity.
  - reflexivity.
Defined.

(** ** The scan and the editor share the schedule *)

















(** * Further properties of the code *)

(** ** The matcher, beyond the weekday rules *)

(** X1: a rule with a date is due only on that date, whatever its weekday
    fields hold; its hour range and minute are tested as for any rule. *)
Theorem dated_rule_due_only_on_its_date (t : timestamp) (e : event) :
  date e ≠ "" →
  is_due t e = true →
  now_date t = date e ∧
  start_hour e ≤ now_hour t ≤ end_hour e ∧ now_minute t = minute e.
Proof.
  intros Hd Hdue. apply is_due_spec in Hdue as ([?|?] & _ & _ & ? & ?); done.
Qed.

Lemma dated_rule_due_only_on_its_date_witness :
  now_date (Timestamp "12/25/21" 6 6 0) = date (Event "12/25/21" 8 8 0 23 0 "Strike") ∧
  start_hour (Event "12/25/21" 8 8 0 23 0 "Strike") ≤ now_hour (Timestamp "12/25/21" 6 6 0)
    ≤ end_hour (Event "12/25/21" 8 8 0 23 0 "Strike") ∧
  now_minute (Timestamp "12/25/21" 6 6 0) = minute (Event "12/25/21" 8 8 0 23 0 "Strike").
Proof.
  apply (dated_rule_due_only_on_its_date
           (Timestamp "12/25/21" 6 6 0) (Event "12/25/21" 8 8 0 23 0 "Strike")).
  - discriminate.
  - reflexivity.
Defined.

(** X2: a range entered the wrong way round never matches: a rule whose
    ending weekday lies before its starting weekday (as in fr-mo), or whose
    ending hour lies before its starting hour, is due at no time. *)
Theorem inverted_range_never_due (t : timestamp) (e : event) :
  (end_day e < start_day e ∧ start_day e < 8) ∨ end_hour e < start_hour e →
  is_due t e = false.
Proof.
  intros Hinv. destruct (is_due t e) eqn:Hdue; [|done].
  apply is_due_spec in Hdue as (_ & Hs & He & Hh & _).
  destruct Hinv as [[Hlt H8]|Hlt]; lia.
Qed.

Lemma inverted_range_never_due_witness :
  is_due sunday_5am (Event "" 5 1 0 23 0 "Bell") = false.
Proof.
  apply (inverted_range_never_due sunday_5am (Event "" 5 1 0 23 0 "Bell")).
  left. simpl. lia.
Defined.

(** X3: whatever the clock hour, the file played for a Strike rule is one
    of the twelve strike files the editor looks for. *)
Theorem strike_sound_is_a_strike_file (now : timestamp) (d : string)
    (sd ed sh eh m : Z) :
  sound_of now (Event d sd ed sh eh m "Strike") ∈ strike_file <$> seq 0 12.
Proof.
  unfold sound_of. cbn [file].
  replace (String.eqb "Strike" "Strike") with true by reflexivity.
  assert (1 ≤ strike_hour now ≤ 12) as Hh.
  { unfold strike_hour.
    pose proof (Z.mod_pos_bound (now_hour now) 12 ltac:(lia)).
    destruct (Z.eqb_spec (now_hour now mod 12) 0); lia. }
  apply list_elem_of_fmap. exists (Z.to_nat (strike_hour now - 1)). split.
  - unfold strike_file.
    by replace (Z.of_nat (Z.to_nat (strike_hour now - 1)) + 1)
      with (strike_hour now) by lia.
  - apply elem_of_seq. lia.
Qed.

(** ** The weekday tables *)

(** X4: [day_dict] and [day_list] are inverse to each other: a weekday
    name is encoded as the index at which [day_list] holds that name. *)
Theorem day_tables_agree (name : string) (i : Z) :
  day_dict !! name = Some i ↔ 0 ≤ i ∧ Py.getitem day_list i = Some name.
Proof.
  split.
  - intros H. unfold day_dict in H. apply elem_of_list_to_map_2 in H.
    repeat (apply elem_of_cons in H as [[= -> ->]|H]; [by split|]).
    by apply elem_of_nil in H.
  - intros [Hi H]. unfold Py.getitem, Py.index in H.
    destruct (Z.ltb_spec i 0); [lia|].
    destruct (Z.leb_spec 0 i); [|lia].
    destruct (Z.ltb_spec i (Z.of_nat (length day_list))) as [Hlt|]; [|done].
    simpl in Hlt, H.
    assert (i = 0 ∨ i = 1 ∨ i = 2 ∨ i = 3 ∨ i = 4 ∨ i = 5 ∨ i = 6)
      as [->|[->|[->|[->|[->|[->| ->]]]]]] by lia;
      injection H as <-; reflexivity.
Qed.

(** ** The schedule operations, composed *)

(** X5: insert-or-replace at a line number [pos >= 1] leaves every other
    line of the schedule as it was. *)
Theorem upsert_keeps_other_lines (pos : Z) (r : event)
    (schedule schedule' : list event) (j : nat) :
  1 ≤ pos →
  upsert pos r schedule = Some schedule' →
  (j < length schedule)%nat → j ≠ Z.to_nat (pos - 1) →
  schedule' !! j = schedule !! j.
Proof.
  intros Hpos Hup Hj Hne. unfold upsert in Hup. rewrite Z.geb_leb in Hup.
  destruct (Z.leb_spec (Z.of_nat (length schedule)) (pos - 1)).
  - injection Hup as <-. by rewrite lookup_app_l.
  - rewrite setitem_in_range in Hup by lia. injection Hup as <-.
    by rewrite list_lookup_insert_ne.
Qed.

Lemma upsert_keeps_other_lines_witness :
  <[1%nat := bell "A"]> default_schedule !! 0%nat = default_schedule !! 0%nat.
Proof.
  apply (upsert_keeps_other_lines 2 (bell "A") default_schedule
           (<[1%nat := bell "A"]> default_schedule) 0).
  - lia.
  - reflexivity.
  - simpl. lia.
  - discriminate.
Defined.

(** X6: deleting line [pos] renumbers the schedule: the lines before it
    keep their numbers and the lines after it move up by one. *)
Theorem delete_line_renumbers (pos : Z) (schedule : list event) (j : nat) :
  1 ≤ pos ≤ Z.of_nat (length schedule) →
  (delete_line pos schedule).2 !! j
  = if decide (j < Z.to_nat (pos - 1))%nat then schedule !! j else schedule !! S j.
Proof.
  intros Hpos. unfold delete_line.
  destruct (Nat.ltb_spec 0 (length schedule)); [|lia].
  destruct (lookup_lt_is_Some_2 schedule (Z.to_nat (pos - 1)) ltac:(lia)) as [e He].
  rewrite (pop_in_range _ _ e) by (done || lia). simpl.
  case_decide.
  - by apply list_lookup_delete_lt.
  - apply list_lookup_delete_ge. lia.
Qed.

Lemma delete_line_renumbers_witness :
  (delete_line 2 default_schedule).2 !! 1%nat
  = if decide (1 < Z.to_nat (2 - 1))%nat
    then default_schedule !! 1%nat else default_schedule !! 2%nat.
Proof. apply (delete_line_renumbers 2 default_schedule 1). simpl. lia. Defined.

(** X7: a rule appended with a line number past the end is the last line,
    and deleting that last line gives the schedule back. *)
Theorem append_then_delete (pos : Z) (r : event) (schedule : list event) :
  Z.of_nat (length schedule) < pos →
  ∃ schedule',
    upsert pos r schedule = Some schedule' ∧
    delete_line (Z.of_nat (length schedule')) schedule' = (Deleted r, schedule).
Proof.
  intros Hpos. exists (schedule ++ [r]). split.
  - unfold upsert. rewrite Z.geb_leb.
    destruct (Z.leb_spec (Z.of_nat (length schedule)) (pos - 1)); [done|lia].
  - unfold delete_line. rewrite length_app. simpl.
    destruct (Nat.ltb_spec 0 (length schedule + 1)); [|lia].
    rewrite (pop_in_range _ _ r).
    + replace (Z.to_nat (Z.of_nat (length schedule + 1) - 1))
        with (length schedule) by lia.
      rewrite delete_middle. by rewrite app_nil_r.
    + lia.
    + replace (Z.to_nat (Z.of_nat (length schedule + 1) - 1))
        with (length schedule) by lia.
      by rewrite list_lookup_middle.
Qed.

Lemma append_then_delete_witness :
  ∃ schedule',
    upsert 9 (bell "A") default_schedule = Some schedule' ∧
    delete_line (Z.of_nat (length schedule')) schedule'
    = (Deleted (bell "A"), default_schedule).
Proof. apply (append_then_delete 9 (bell "A") default_schedule). simpl. lia. Defined.

(** X8: with line number 0 the assignment is [schedule[-1] = event]: on an
    empty schedule it raises, otherwise it replaces the last rule. *)
Theorem upsert_line_zero (r : event) (schedule : list event) :
  upsert 0 r schedule
  = match schedule with
    | [] => None
    | _ => Some (removelast schedule ++ [r])
    end.
Proof.
  destruct (decide (schedule = [])) as [->|Hne]; [done|].
  destruct (exists_last Hne) as (front & e & ->).
  rewrite removelast_last.
  destruct (front ++ [e]) eqn:Heq; [by destruct front|]. rewrite <- Heq.
  unfold upsert, Py.setitem. rewrite Z.geb_leb.
  destruct (Z.leb_spec (Z.of_nat (length (front ++ [e]))) (0 - 1)); [lia|].
  rewrite index_from_end by (rewrite length_app; simpl; lia).
  rewrite length_app. simpl.
  replace (Z.to_nat (0 - 1 + Z.of_nat (length front + 1))) with (length front) by lia.
  replace (length front) with (length front + 0)%nat at 1 by lia.
  by rewrite insert_app_r.
Qed.

(** ** The editor *)

Lemma getitem_is_Some {A} (l : list A) (k : Z) :
  is_Some (Py.getitem l k) ↔ - Z.of_nat (length l) ≤ k < Z.of_nat (length l).
Proof.
  unfold Py.getitem, Py.index.
  destruct (Z.ltb_spec k 0).
  - destruct (Z.leb_spec 0 (k + Z.of_nat (length l)));
      destruct (Z.ltb_spec (k + Z.of_nat (length l)) (Z.of_nat (length l)));
      simpl; try (split; [by intros [? [=]]|lia]).
    split; [lia|]. intros _. apply lookup_lt_is_Some_2. lia.
  - destruct (Z.leb_spec 0 k); [|lia].
    destruct (Z.ltb_spec k (Z.of_nat (length l)));
      simpl; try (split; [by intros [? [=]]|lia]).
    split; [lia|]. intros _. apply lookup_lt_is_Some_2. lia.
Qed.

Lemma show_line_is_Some (i : nat) (e : event) :
  is_Some (show_line i e) ↔ displayable e.
Proof.
  unfold show_line, displayable.
  destruct (String.eqb_spec (date e) "") as [Hd|Hd]; simpl.
  - pose proof (getitem_is_Some day_list (start_day e)) as [Hs1 Hs2].
    pose proof (getitem_is_Some day_list (end_day e)) as [He1 He2].
    change (Z.of_nat (length day_list)) with 7 in *.
    destruct (Py.getitem day_list (start_day e)) as [d1|]; simpl.
    + destruct (Py.getitem day_list (end_day e)) as [d2|]; simpl.
      * split; [intros _; right|by eexists].
        specialize (Hs1 ltac:(by eexists)). specialize (He1 ltac:(by eexists)).
        lia.
      * split; [by intros [? [=]]|].
        intros [?|[_ Hr]]; [done|]. destruct He2 as [? [=]]. lia.
    + split; [by intros [? [=]]|].
      intros [?|[Hr _]]; [done|]. destruct Hs2 as [? [=]]. lia.
  - split; [by left|by eexists].
Qed.

Lemma show_lines_is_Some (i : nat) (schedule : list event) :
  is_Some (show_lines i schedule) ↔ Forall displayable schedule.
Proof.
  revert i. induction schedule as [|e l IH]; intros i; simpl.
  - split; [by constructor|by eexists].
  - rewrite Forall_cons, <- (show_line_is_Some i e), <- (IH (S i)).
    destruct (show_line i e); simpl.
    + destruct (show_lines (S i) l); simpl.
      * split; [by split; eexists|by eexists].
      * split; [by intros [? [=]]|by intros [_ [? [=]]]].
    + split; [by intros [? [=]]|by intros [[? [=]] _]].
Qed.

Lemma show_lines_length (i : nat) (schedule : list event) (ls : list string) :
  show_lines i schedule = Some ls → length ls = length schedule.
Proof.
  revert i ls. induction schedule as [|e l IH]; intros i ls; simpl.
  - by intros [= <-].
  - destruct (show_line i e); simpl; [|done].
    destruct (show_lines (S i) l) as [ls'|] eqn:Hls; simpl; [|done].
    intros [= <-]. simpl. f_equal. by eapply IH.
Qed.

(** X9: [show_schedule()] raises exactly when some rule without a date
    has a weekday number outside -7..6; otherwise it prints the heading and
    one line per rule. *)
Theorem show_schedule_raises_iff (schedule : list event) :
  (show_schedule schedule = None ↔ ¬ Forall displayable schedule) ∧
  (∀ t, show_schedule schedule = Some t →
        ∃ ls, t = Table ("Day(s) Hr(s) Min Tune" :: ls) ∧
              length ls = length schedule).
Proof.
  unfold show_schedule. pose proof (show_lines_is_Some 0 schedule) as Hiff.
  destruct (show_lines 0 schedule) as [ls|] eqn:Hls; simpl.
  - split.
    + split; [done|]. intros Hn. destruct Hn. apply Hiff. by eexists.
    + intros t [= <-]. exists ls. split; [done|]. by eapply show_lines_length.
  - split; [|done].
    split; [|done]. intros _ Hall. apply Hiff in Hall as [? [=]].
Qed.

(** X10: the editor keeps the schedule well formed: whatever lines are
    typed, every rule has weekday numbers 0..6 and no date, or a date and
    the sentinel 8, a start hour in 0..23 and a minute in 0..59; and the
    schedule can be displayed. *)
Theorem editor_keeps_schedule_valid (can_open : string → bool)
    (commands : list string) (schedule : list event) :
  Forall valid_event schedule →
  Forall valid_event (main_loop can_open commands schedule).1 ∧
  is_Some (show_schedule (main_loop can_open commands schedule).1).
Proof.
  intros Hv. pose proof (main_loop_valid can_open commands schedule Hv) as Hv'.
  split; [done|]. apply valid_schedule_is_shown.
  eapply Forall_impl; [exact Hv'|]. by intros e [? _].
Qed.

Lemma editor_keeps_schedule_valid_witness :
  Forall valid_event
    (main_loop any_file ["6 12/25/21 0-23 0 Strike"; "2"; "1 fr-mo 5-99 0 Ave Maria"]
               default_schedule).1 ∧
  is_Some (show_schedule
    (main_loop any_file ["6 12/25/21 0-23 0 Strike"; "2"; "1 fr-mo 5-99 0 Ave Maria"]
               default_schedule).1).
Proof.
  apply (editor_keeps_schedule_valid any_file
           ["6 12/25/21 0-23 0 Strike"; "2"; "1 fr-mo 5-99 0 Ave Maria"]
           default_schedule).
  apply (bool_decide_unpack _). vm_compute. exact I.
Defined.

(** *** The file name *)





Lemma not_strike_keyword (file : string) :
  Py.lower file ≠ "strike" → String.eqb file "Strike" = false.
Proof.
  intros Hl. destruct (String.eqb_spec file "Strike") as [->|]; [|done].
  by destruct Hl.
Qed.

(** X12: for a file name that is not the strike keyword and does not end
    in .mp3, the file the editor opens to accept the line is the file
    playout asks for when the rule is due. *)
Theorem accepted_file_is_the_file_played (can_open : string → bool)
    (now : timestamp) (d : string) (sd ed sh eh m : Z) (name : string) :
  Py.lower name ≠ "strike" →
  Py.endswith (Py.lower name) ".mp3" = false →
  check_file can_open name
  = if can_open (sound_of now (Event d sd ed sh eh m name)) then Go [] tt
    else Brk [ErrFileNotFound (sound_of now (Event d sd ed sh eh m name))].
Proof.
  intros Hl Hs. unfold check_file, sound_of. cbn [file].
  rewrite (not_strike_keyword _ Hl), Hs.
  by destruct (String.eqb_spec (Py.lower name) "strike").
Qed.

Lemma accepted_file_is_the_file_played_witness :
  check_file any_file "Ave Maria"
  = if any_file (sound_of sunday_5am (Event "" 0 6 0 23 0 "Ave Maria")) then Go [] tt
    else Brk [ErrFileNotFound (sound_of sunday_5am (Event "" 0 6 0 23 0 "Ave Maria"))].
Proof.
  apply (accepted_file_is_the_file_played any_file sunday_5am "" 0 6 0 23 0 "Ave Maria").
  - discriminate.
  - reflexivity.
Defined.

(** X13: for a file name typed with its .mp3 ending, the editor opens the
    name as typed, while playout appends .mp3 once more. *)
Theorem mp3_ending_is_appended_again (can_open : string → bool)
    (now : timestamp) (d : string) (sd ed sh eh m : Z) (name : string) :
  Py.endswith (Py.lower name) ".mp3" = true →
  check_file can_open name
  = (if can_open (file_path +:+ name) then Go [] tt
     else Brk [ErrFileNotFound (file_path +:+ name)]) ∧
  sound_of now (Event d sd ed sh eh m name) = file_path +:+ name +:+ ".mp3".
Proof.
  intros Hs.
  assert (Py.lower name ≠ "strike") as Hl by (intros Heq; by rewrite Heq in Hs).
  unfold check_file, sound_of. cbn [file].
  rewrite (not_strike_keyword _ Hl), Hs.
  by destruct (String.eqb_spec (Py.lower name) "strike").
Qed.

Lemma mp3_ending_is_appended_again_witness :
  check_file any_file "Bell.MP3"
  = (if any_file (file_path +:+ "Bell.MP3") then Go [] tt
     else Brk [ErrFileNotFound (file_path +:+ "Bell.MP3")]) ∧
  sound_of sunday_5am (Event "" 0 6 0 23 0 "Bell.MP3")
  = file_path +:+ "Bell.MP3" +:+ ".mp3".
Proof.
  apply (mp3_ending_is_appended_again any_file sunday_5am "" 0 6 0 23 0 "Bell.MP3").
  reflexivity.
Defined.

Lemma splitn_cons (sep c : ascii) (s : string) (n : nat) :
  Py.splitn sep (String c s) (S n)
  = if Ascii.eqb c sep then EmptyString :: Py.splitn sep s n
    else match Py.splitn sep s (S n) with
         | w :: ws => String c w :: ws
         | [] => [String c EmptyString]
         end.
Proof. reflexivity. Qed.

Lemma splitn_field (f rest : string) (n : nat) :
  Py.contains " " f = false →
  Py.splitn " " (f +:+ " " +:+ rest) (S n) = f :: Py.splitn " " rest n.
Proof.
  change (" " +:+ rest) with (String " " rest).
  induction f as [|c f IH]; intros Hf; [done|].
  change (Ascii.eqb c " " || Py.contains " " f = false) in Hf.
  apply orb_false_elim in Hf as [Hc Hf].
  change (String c f +:+ String " " rest) with (String c (f +:+ String " " rest)).
  by rewrite splitn_cons, Hc, (IH Hf).
Qed.

(** X14: the file name is the whole rest of the line after the fourth
    space, embedded spaces included: the rule made of a line whose first
    four fields hold no space has that rest as its file. *)
Theorem file_name_keeps_its_spaces (can_open : string → bool)
    (f0 f1 f2 f3 rest : string) (fields : list string)
    (out : list output) (ev : event) :
  Py.contains " " f0 = false → Py.contains " " f1 = false →
  Py.contains " " f2 = false → Py.contains " " f3 = false →
  parse_event can_open
    (f0 +:+ " " +:+ f1 +:+ " " +:+ f2 +:+ " " +:+ f3 +:+ " " +:+ rest) fields
  = Go out ev →
  file ev = rest.
Proof.
  intros H0 H1 H2 H3 H. unfold parse_event in H.
  apply ctl_bind_Go in H as (? & [[d s] e] & ? & _ & H & _).
  apply ctl_bind_Go in H as (? & [sh eh] & ? & _ & H & _).
  apply ctl_bind_Go in H as (? & m & ? & _ & H & _).
  apply ctl_bind_Go in H as (? & [] & ? & _ & H & _).
  injection H as _ <-. cbn [file].
  rewrite !splitn_field by done. by destruct rest.
Qed.

Lemma file_name_keeps_its_spaces_witness :
  file (Event "" 0 0 5 5 0 "Ave Maria") = "Ave Maria".
Proof.
  apply (file_name_keeps_its_spaces any_file "1" "su" "5" "0" "Ave Maria"
           (Py.split " " "1 su 5 0 Ave Maria") [] (Event "" 0 0 5 5 0 "Ave Maria"));
    reflexivity.
Defined.

(** *** What a line can change *)

(** X15: a line that does not begin with a number (a question mark, an
    empty line, anything else) never changes the schedule. *)
Theorem unnumbered_line_changes_nothing (can_open : string → bool)
    (command : string) (schedule : list event) :
  Py.isnumeric (hd "" (Py.split " " command)) = false →
  sched (input_line can_open command schedule) = schedule.
Proof.
  intros Hn. unfold input_line. rewrite Hn. simpl.
  by repeat case_match.
Qed.

Lemma unnumbered_line_changes_nothing_witness :
  sched (input_line any_file "su 5 0 Bell" default_schedule) = default_schedule.
Proof.
  apply (unnumbered_line_changes_nothing any_file "su 5 0 Bell" default_schedule).
  reflexivity.
Defined.

Ltac ctl_inv H :=
  repeat (let Hc := fresh "Hc" in
          apply ctl_bind_Go in H as (? & ? & ? & Hc & H & ->));
  unfold break, say, try, mret, ctl_ret in *;
  repeat case_match; simplify_eq.

Lemma parse_days_out (field : string) (out : list output) (r : string * Z * Z) :
  parse_days field = Go out r → out = [].
Proof. unfold parse_days. intros H. repeat case_match; ctl_inv H; done. Qed.

Lemma parse_hours_out (hours : string) (out : list output) (r : Z * Z) :
  parse_hours hours = Go out r → Forall (λ o, is_warning o = true) out.
Proof.
  unfold parse_hours. intros H. ctl_inv H; simpl; repeat constructor.
Qed.

Lemma parse_minute_out (field : string) (out : list output) (m : Z) :
  parse_minute field = Go out m → out = [].
Proof. unfold parse_minute. intros H. ctl_inv H; done. Qed.

Lemma strike_files_out (can_open : string → bool) (names : list string) :
  Forall (λ o, is_warning o = true) (strike_files can_open names).
Proof.
  induction names as [|n l IH]; simpl; [constructor|].
  destruct (can_open n); [done|]. by repeat constructor.
Qed.

Lemma check_file_out (can_open : string → bool) (name : string) (out : list output) :
  check_file can_open name = Go out tt → Forall (λ o, is_warning o = true) out.
Proof.
  unfold check_file. destruct (String.eqb _ _).
  - intros H.
    assert (out = strike_files can_open (strike_file <$> seq 0 12)) as ->
      by congruence.
    apply strike_files_out.
  - destruct (can_open _); [|done]. intros [= <-]. constructor.
Qed.

Lemma parse_event_out (can_open : string → bool) (command : string)
    (fields : list string) (out : list output) (ev : event) :
  parse_event can_open command fields = Go out ev →
  Forall (λ o, is_warning o = true) out.
Proof.
  unfold parse_event. intros H.
  apply ctl_bind_Go in H as (? & [[d s] e] & ? & Hd & H & ->).
  apply ctl_bind_Go in H as (? & [sh eh] & ? & Hh & H & ->).
  apply ctl_bind_Go in H as (? & m & ? & Hm & H & ->).
  apply ctl_bind_Go in H as (? & [] & ? & Hf & H & ->).
  injection H as <- _.
  apply parse_days_out in Hd as ->. apply parse_hours_out in Hh.
  apply parse_minute_out in Hm as ->. apply check_file_out in Hf.
  rewrite app_nil_r. simpl. by apply Forall_app.
Qed.

(** X16: a line that changes the schedule prints no error: at most the
    warning about an end hour out of range and the warning about a missing
    strike file. Every other message means the schedule is as it was. *)
Theorem changed_schedule_prints_only_warnings (can_open : string → bool)
    (command : string) (schedule : list event) :
  sched (input_line can_open command schedule) ≠ schedule →
  Forall (λ o, is_warning o = true) (printed (input_line can_open command schedule)).
Proof.
  unfold input_line. intros Hch.
  repeat (case_match; simpl in *; try done).
  - match goal with
    | H : delete_line _ _ = _ |- _ =>
        unfold delete_line in H; repeat case_match; simplify_eq; done
    end.
  - by eapply parse_event_out.
Qed.

Lemma changed_schedule_prints_only_warnings_witness :
  Forall (λ o, is_warning o = true)
         (printed (input_line any_file "1 su 5-99 0 Hour" default_schedule)).
Proof.
  apply (changed_schedule_prints_only_warnings any_file "1 su 5-99 0 Hour"
           default_schedule).
  vm_compute. discriminate.
Defined.

(** X17: on a well-formed schedule the input loop never ends: lines typed
    one batch after the other are handled as the same lines typed in one
    go, schedule and output alike. *)
Theorem main_loop_app (can_open : string → bool) (first second : list string)
    (schedule : list event) :
  Forall valid_event schedule →
  (main_loop can_open (first ++ second) schedule).1
  = (main_loop can_open second (main_loop can_open first schedule).1).1 ∧
  (main_loop can_open (first ++ second) schedule).2
  = (main_loop can_open first schedule).2
    ++ (main_loop can_open second (main_loop can_open first schedule).1).2.
Proof.
  revert schedule. induction first as [|c first IH]; intros schedule Hv; [done|].
  simpl. pose proof (input_line_valid can_open c schedule Hv) as Hst.
  destruct (IH _ Hst) as [IH1 IH2].
  assert (is_Some (show_schedule (sched (input_line can_open c schedule))))
    as [t Ht].
  { apply valid_schedule_is_shown. eapply Forall_impl; [exact Hst|]. by intros ? [? _]. }
  rewrite Ht.
  destruct (main_loop can_open (first ++ second) _) as [s o].
  destruct (main_loop can_open first _) as [s1 o1].
  simpl in IH1, IH2. subst s o.
  destruct (broke _); simpl; (split; [done|]);
    by rewrite <- (assoc_L (++)).
Qed.

Lemma main_loop_app_witness :
  (main_loop any_file (["2"] ++ ["1 su 5 0 Bell"]) default_schedule).1
  = (main_loop any_file ["1 su 5 0 Bell"]
       (main_loop any_file ["2"] default_schedule).1).1 ∧
  (main_loop any_file (["2"] ++ ["1 su 5 0 Bell"]) default_schedule).2
  = (main_loop any_file ["2"] default_schedule).2
    ++ (main_loop any_file ["1 su 5 0 Bell"]
          (main_loop any_file ["2"] default_schedule).1).2.
Proof.
  apply (main_loop_app any_file ["2"] ["1 su 5 0 Bell"] default_schedule).
  apply (bool_decide_unpack _). vm_compute. exact I.
Defined.

(** ** The playout thread, cycle after cycle *)

(** Either every due rule of [l] plays, or there is a first due rule whose
    play raises. *)
Lemma first_failure (playsound : string → bool) (clock : nat → timestamp)
    (l : list event) (i : nat) :
  Forall (λ s, playsound s = true) (due_sounds clock i l) ∨
  ∃ mid e post,
    l = mid ++ e :: post ∧
    Forall (λ s, playsound s = true) (due_sounds clock i mid) ∧
    is_due (clock (i + length mid)%nat) e = true ∧
    playsound (sound_of (clock (i + length mid)%nat) e) = false.
Proof.
  revert i. induction l as [|e l IH]; intros i; [left; constructor|].
  simpl. destruct (is_due (clock i) e) eqn:Hdue; simpl.
  - destruct (playsound (sound_of (clock i) e)) eqn:Hplay.
    + destruct (IH (S i)) as [Hall|(mid & e' & post & -> & Hmid & Hd & Hp)].
      * left. by constructor.
      * right. exists (e :: mid), e', post. simpl. rewrite Hdue. simpl.
        replace (i + S (length mid))%nat with (S i + length mid)%nat by lia.
        split; [done|]. split; [by constructor|done].
    + right. exists [], e, l. simpl. rewrite Nat.add_0_r.
      split; [done|]. split; [constructor|done].
  - destruct (IH (S i)) as [Hall|(mid & e' & post & -> & Hmid & Hd & Hp)].
    + by left.
    + right. exists (e :: mid), e', post. simpl. rewrite Hdue. simpl.
      replace (i + S (length mid))%nat with (S i + length mid)%nat by lia.
      done.
Qed.

(** The two ways a cycle without typed lines goes. *)
Lemma quiet_tick_cases (can_open playsound : string → bool)
    (clock : nat → timestamp) (schedule : list event) :
  tick can_open playsound quiet clock schedule
  = Tick schedule (Played <$> due_sounds clock 0 schedule) true ∨
  ∃ pre e post,
    schedule = pre ++ e :: post ∧
    Forall (λ s, playsound s = true) (due_sounds clock 0 pre) ∧
    is_due (clock (length pre)) e = true ∧
    playsound (sound_of (clock (length pre)) e) = false ∧
    tick can_open playsound quiet clock schedule
    = mop_up (length pre) schedule (Played <$> due_sounds clock 0 pre).
Proof.
  destruct (first_failure playsound clock schedule 0)
    as [Hall|(pre & e & post & -> & Hpre & Hdue & Hfail)].
  - left. unfold tick.
    pose proof (scan_quiet_all can_open playsound clock schedule []) as Hscan.
    simpl in Hscan. by rewrite (Hscan Hall).
  - right. exists pre, e, post. simpl in Hdue, Hfail.
    repeat (split; [done|]). unfold tick.
    pose proof (scan_quiet_raise can_open playsound clock pre [] e post) as Hscan.
    simpl in Hscan. by rewrite (Hscan Hpre Hdue Hfail).
Qed.

(** X18: a cycle during which no line is typed removes at most one rule,
    however many plays would fail: the schedule is left as it was, or it
    loses the first due rule whose play raises, and nothing else. *)
Theorem quiet_tick_removes_at_most_one_rule (can_open playsound : string → bool)
    (clock : nat → timestamp) (schedule : list event) :
  store (tick can_open playsound quiet clock schedule) = schedule ∨
  ∃ pre e post,
    schedule = pre ++ e :: post ∧
    store (tick can_open playsound quiet clock schedule) = pre ++ post ∧
    Forall (λ s, playsound s = true) (due_sounds clock 0 pre) ∧
    is_due (clock (length pre)) e = true ∧
    playsound (sound_of (clock (length pre)) e) = false.
Proof.
  destruct (quiet_tick_cases can_open playsound clock schedule)
    as [->|(pre & e & post & -> & Hpre & Hdue & Hfail & ->)]; [by left|].
  unfold mop_up. rewrite list_lookup_middle by done.
  destruct (show_schedule _); [|by left].
  right. exists pre, e, post. simpl. by rewrite delete_middle.
Qed.

Lemma quiet_tick_keeps_valid (can_open playsound : string → bool)
    (clock : nat → timestamp) (schedule : list event) :
  Forall valid_event schedule →
  alive (tick can_open playsound quiet clock schedule) = true ∧
  Forall valid_event (store (tick can_open playsound quiet clock schedule)) ∧
  (length (store (tick can_open playsound quiet clock schedule)) ≤ length schedule)%nat.
Proof.
  intros Hv.
  destruct (quiet_tick_cases can_open playsound clock schedule)
    as [->|(pre & e & post & -> & Hpre & Hdue & Hfail & ->)]; [done|].
  unfold mop_up. rewrite list_lookup_middle by done.
  destruct (valid_schedule_is_shown (pre ++ e :: post)) as [t ->].
  { eapply Forall_impl; [exact Hv|]. by intros ? [? _]. }
  simpl. rewrite delete_middle. split; [done|].
  apply Forall_app in Hv as [Hv1 Hv2]. apply Forall_cons in Hv2 as [_ Hv2].
  split; [by apply Forall_app|]. rewrite !length_app. simpl. lia.
Qed.

(** X19: on a well-formed schedule, and with no line typed during the
    scans, the playout thread lives through any number of cycles, whatever
    fails to play: the rules left are well formed, and the schedule never
    grows. *)
Theorem playout_survives_failing_plays (can_open playsound : string → bool)
    (clocks : list (nat → timestamp)) (schedule : list event) :
  Forall valid_event schedule →
  alive (playout can_open playsound ((λ clock, (quiet, clock)) <$> clocks) schedule)
  = true ∧
  Forall valid_event
    (store (playout can_open playsound ((λ clock, (quiet, clock)) <$> clocks) schedule)) ∧
  (length (store (playout can_open playsound
                    ((λ clock, (quiet, clock)) <$> clocks) schedule))
   ≤ length schedule)%nat.
Proof.
  revert schedule. induction clocks as [|clock clocks IH]; intros schedule Hv.
  - simpl. by repeat split.
  - destruct (quiet_tick_keeps_valid can_open playsound clock schedule Hv)
      as (Ha & Hv' & Hlen).
    destruct (IH _ Hv') as (Ha' & Hv'' & Hlen').
    rewrite fmap_cons. cbn [playout]. rewrite Ha. cbn [alive store].
    split; [done|]. split; [done|lia].
Qed.

Lemma playout_survives_failing_plays_witness :
  alive (playout any_file (all_but "/home/dave/Carillon/Strike5.mp3")
           ((λ clock, (quiet, clock)) <$> [λ _, sunday_5am; λ _, sunday_6am])
           default_schedule)
  = true ∧
  Forall valid_event
    (store (playout any_file (all_but "/home/dave/Carillon/Strike5.mp3")
              ((λ clock, (quiet, clock)) <$> [λ _, sunday_5am; λ _, sunday_6am])
              default_schedule)) ∧
  (length (store (playout any_file (all_but "/home/dave/Carillon/Strike5.mp3")
                    ((λ clock, (quiet, clock)) <$> [λ _, sunday_5am; λ _, sunday_6am])
                    default_schedule))
   ≤ length default_schedule)%nat.
Proof.
  apply (playout_survives_failing_plays any_file
           (all_but "/home/dave/Carillon/Strike5.mp3")
           [λ _, sunday_5am; λ _, sunday_6am] default_schedule).
  apply (bool_decide_unpack _). vm_compute. exact I.
Defined.

(** ** Dates *)

Lemma digit_plain (c : ascii) :
  Py.is_digit c = true →
  Ascii.eqb c "/" = false ∧ Py.is_space c = false ∧
  0 ≤ Py.digit_val c ≤ 9.
Proof.
  destruct c as [[] [] [] [] [] [] [] []]; intros H; try discriminate H;
    vm_compute; repeat split; discriminate.
Qed.

Lemma int_two_digits (a b : ascii) :
  Py.is_digit a = true → Py.is_digit b = true →
  Py.int (String a (String b EmptyString))
  = Some (10 * Py.digit_val a + Py.digit_val b).
Proof.
  intros Ha Hb. destruct (digit_plain b Hb) as (_ & Hsb & _).
  unfold Py.int.
  assert (Py.rstrip (Py.lstrip (String a (String b EmptyString)))
          = String a (String b EmptyString)) as ->.
  { destruct (digit_plain a Ha) as (_ & Hsa & _). simpl. rewrite Hsa. simpl.
    by rewrite Hsb. }
  destruct a as [[] [] [] [] [] [] [] []]; try discriminate Ha;
    simpl; rewrite Hb; reflexivity.
Qed.

Lemma split_cons (sep c : ascii) (s : string) :
  Py.split sep (String c s)
  = if Ascii.eqb c sep then EmptyString :: Py.split sep s
    else match Py.split sep s with
         | w :: ws => String c w :: ws
         | [] => [String c EmptyString]
         end.
Proof. reflexivity. Qed.

(** X20: of a date typed as two digits, a slash, two digits, a slash and
    two digits, the editor checks only that the month is at most 12, the
    day at most 31 and the year at least 21: month 00, day 00 and days a
    month does not have pass. An accepted date is stored as typed, with
    the sentinel 8 in both weekday fields. *)
Theorem date_field_accepted_iff (m1 m2 d1 d2 y1 y2 : ascii) :
  Py.is_digit m1 = true → Py.is_digit m2 = true →
  Py.is_digit d1 = true → Py.is_digit d2 = true →
  Py.is_digit y1 = true → Py.is_digit y2 = true →
  (parse_days
     (String m1 (String m2 (String "/" (String d1 (String d2 (String "/"
        (String y1 (String y2 EmptyString))))))))
   = Go [] (String m1 (String m2 (String "/" (String d1 (String d2 (String "/"
              (String y1 (String y2 EmptyString))))))), 8, 8)
   ↔ 10 * Py.digit_val m1 + Py.digit_val m2 ≤ 12 ∧
     10 * Py.digit_val d1 + Py.digit_val d2 ≤ 31 ∧
     21 ≤ 10 * Py.digit_val y1 + Py.digit_val y2).
Proof.
  intros Hm1 Hm2 Hd1 Hd2 Hy1 Hy2.
  destruct (digit_plain m1 Hm1) as (Sm1 & _ & ?).
  destruct (digit_plain m2 Hm2) as (Sm2 & _ & ?).
  destruct (digit_plain d1 Hd1) as (Sd1 & _ & ?).
  destruct (digit_plain d2 Hd2) as (Sd2 & _ & ?).
  destruct (digit_plain y1 Hy1) as (Sy1 & _ & ?).
  destruct (digit_plain y2 Hy2) as (Sy2 & _ & ?).
  unfold parse_days. cbn [Py.contains]. rewrite Sm1, Sm2. simpl orb.
  cbn [String.length Nat.eqb negb].
  rewrite !split_cons, Sm1, Sm2, Sd1, Sd2, Sy1, Sy2. simpl Ascii.eqb.
  cbn [Py.split lookup list_lookup mbind option_bind].
  rewrite !int_two_digits by done.
  unfold try, mbind, ctl_bind, ctl_say, break, mret, ctl_ret. simpl app.
  rewrite !Z.gtb_ltb.
  destruct (Z.ltb_spec (10 * Py.digit_val m1 + Py.digit_val m2) 0); [lia|].
  destruct (Z.ltb_spec 12 (10 * Py.digit_val m1 + Py.digit_val m2)); simpl.
  { split; [done|lia]. }
  destruct (Z.ltb_spec (10 * Py.digit_val d1 + Py.digit_val d2) 0); [lia|].
  destruct (Z.ltb_spec 31 (10 * Py.digit_val d1 + Py.digit_val d2)); simpl.
  { split; [done|lia]. }
  destruct (Z.ltb_spec (10 * Py.digit_val y1 + Py.digit_val y2) 21); simpl.
  { split; [done|lia]. }
  split; [lia|done].
Qed.

Lemma date_field_accepted_iff_witness :
  parse_days "00/31/21" = Go [] ("00/31/21", 8, 8)
  ↔ 10 * Py.digit_val "0" + Py.digit_val "0" ≤ 12 ∧
    10 * Py.digit_val "3" + Py.digit_val "1" ≤ 31 ∧
    21 ≤ 10 * Py.digit_val "2" + Py.digit_val "1".
Proof.
  apply (date_field_accepted_iff "0" "0" "3" "1" "2" "1"); reflexivity.
Defined.
